(** * NotificationsFilters: the filter panel of the notifications plugin

    A shallow embedding of
    [plugins/notifications/src/components/NotificationsFilters/NotificationsFilters.tsx].

    The component is a React function component: it derives two display
    values from its props, renders three selects, and owns three change
    handlers that call the callbacks passed in by the parent.  The callbacks
    are external, so a handler is modelled by the sequence of callback
    invocations it performs together with its completion (normal, or a
    JavaScript [TypeError]). *)

From Stdlib Require Import ZArith.
From stdpp Require Import base strings list gmap.

Local Open Scope string_scope.

(** ** JavaScript values used by the component *)

(** [x === 'lit'] on strings. *)
Definition strict_eq (x lit : string) : bool := String.eqb x lit.

(** [o === 'lit'] where [o] may be [undefined] (the result of [a?.b]). *)
Definition opt_strict_eq (o : option string) (lit : string) : bool :=
  match o with
  | Some x => strict_eq x lit
  | None => false
  end.

(** Truthiness of an optional boolean prop ([if (saved)]): [undefined] and
    [false] are falsy. *)
Definition truthy (o : option bool) : bool :=
  match o with
  | Some true => true
  | _ => false
  end.

(** [s || fallback] on strings: the empty string is the only falsy one. *)
Definition or_else (s fallback : string) : string :=
  if strict_eq s "" then fallback else s.

(** ** Data model *)

(** [SortBy = Required<Pick<GetNotificationsOptions, 'sort' | 'sortOrder'>>];
    both fields are string literals at run time. *)
Record SortBy := mkSortBy { sort : string; sortOrder : string }.

(** Both tables map a key to an entry that carries a [label]. *)
Class Labelled (A : Type) : Type := label : A -> string.

(** Entries of [CreatedAfterOptions].  [getDate] reads the clock: it is a
    function of [Date.now()], in milliseconds since the epoch. *)
Record CreatedAfterOption := mkCreatedAfterOption {
  createdAfter_label : string;
  getDate : Z -> Z
}.

#[export] Instance CreatedAfterOption_label : Labelled CreatedAfterOption :=
  createdAfter_label.

(** Entries of [SortByOptions]. *)
Record SortByOption := mkSortByOption {
  sortBy_label : string;
  sortBy : SortBy
}.

#[export] Instance SortByOption_label : Labelled SortByOption := sortBy_label.

(** An object literal used as a string-keyed table.  Property order is kept:
    [Object.keys] lists string keys in insertion order. *)
Definition table (A : Type) : Type := list (string * A).

Definition keys {A} (t : table A) : list string := t.*1.

Fixpoint own_property {A} (t : table A) (k : string) : option A :=
  match t with
  | [] => None
  | (k', a) :: t' => if strict_eq k k' then Some a else own_property t' k
  end.

(** Property names every object literal inherits from [Object.prototype]. *)
Definition ObjectPrototype : list string :=
  [ "constructor"; "__defineGetter__"; "__defineSetter__"; "hasOwnProperty";
    "__lookupGetter__"; "__lookupSetter__"; "isPrototypeOf";
    "propertyIsEnumerable"; "toString"; "valueOf"; "__proto__";
    "toLocaleString" ].

(** The result of [t[k]]: an entry of the table, a value inherited from
    [Object.prototype] (a function or the prototype object, none of which
    has a [label], [getDate] or [sortBy] property), or [undefined]. *)
Inductive property (A : Type) : Type :=
  | Own (a : A)
  | Inherited
  | Undefined.
Arguments Own {A} a.
Arguments Inherited {A}.
Arguments Undefined {A}.

Definition get {A} (t : table A) (k : string) : property A :=
  match own_property t k with
  | Some a => Own a
  | None => if bool_decide (k ∈ ObjectPrototype) then Inherited else Undefined
  end.

Definition CreatedAfterOptions : table CreatedAfterOption :=
  [ ("last24h",
     {| createdAfter_label := "Last 24h";
        getDate := fun now => (now - 24 * 3600 * 1000)%Z |});
    ("lastWeek",
     {| createdAfter_label := "Last week";
        getDate := fun now => (now - 7 * 24 * 3600 * 1000)%Z |});
    ("all",
     {| createdAfter_label := "Any time";
        getDate := fun _ => 0%Z |}) ].

Definition SortByOptions : table SortByOption :=
  [ ("newest",
     {| sortBy_label := "Newest on top";
        sortBy := {| sort := "created"; sortOrder := "desc" |} |});
    ("oldest",
     {| sortBy_label := "Oldest on top";
        sortBy := {| sort := "created"; sortOrder := "asc" |} |});
    ("topic",
     {| sortBy_label := "Topic";
        sortBy := {| sort := "topic"; sortOrder := "asc" |} |});
    ("origin",
     {| sortBy_label := "Origin";
        sortBy := {| sort := "origin"; sortOrder := "asc" |} |}) ].

Definition getSortByText (sortBy : option SortBy) : string :=
  if opt_strict_eq (sort <$> sortBy) "created"
     && opt_strict_eq (sortOrder <$> sortBy) "asc"
  then "oldest"
  else if opt_strict_eq (sort <$> sortBy) "topic" then "topic"
  else if opt_strict_eq (sort <$> sortBy) "origin" then "origin"
  else "newest".

(** ** Callbacks and handler outcomes *)

(** An object built by [{ ...x }]: the fields of a [SortBy] copied into a
    new object, or the empty object when [x] is [undefined]. *)
Inductive object : Type :=
  | ObjectOf (sb : SortBy)
  | EmptyObject.

(** One invocation of a callback prop, with its argument.  [None] is
    [undefined]. *)
Inductive call : Type :=
  | onUnreadOnlyChanged (checked : option bool)
  | onSavedChanged (checked : option bool)
  | onCreatedAfterChanged (value : string)
  | onSortingChanged (sortBy : object).

Inductive js_error : Type := TypeError.

Inductive completion (A : Type) : Type :=
  | Normal (a : A)
  | Throw (e : js_error).
Arguments Normal {A} a.
Arguments Throw {A} e.

(** A computation of the component: the callback invocations performed so
    far, in order, and how it ended. *)
Definition M (A : Type) : Type := list call * completion A.

Definition ret {A} (a : A) : M A := ([], Normal a).

Definition bind {A B} (m : M A) (k : A -> M B) : M B :=
  match m with
  | (t, Normal a) => let '(t', r) := k a in ((t ++ t')%list, r)
  | (t, Throw e) => (t, Throw e)
  end.

Definition invoke (c : call) : M unit := ([c], Normal tt).

Definition throw {A} (e : js_error) : M A := ([], Throw e).

Declare Scope js_scope.
Delimit Scope js_scope with js.
Notation "x <- m ;; k" := (bind m (fun x => k))
  (at level 100, m at next level, right associativity) : js_scope.
Notation "m ;; k" := (bind m (fun _ => k))
  (at level 100, right associativity) : js_scope.

Definition calls {A} (m : M A) : list call := m.1.

Definition completes {A} (m : M A) : Prop := ∃ a, m.2 = Normal a.

(** [x.f] for [x = t[k]]: reading a property of [undefined] throws; the
    inherited values have no such property, so the read gives [undefined]. *)
Definition member {A B} (x : property A) (f : A -> B) : M (option B) :=
  match x with
  | Own a => ret (Some (f a))
  | Inherited => ret None
  | Undefined => throw TypeError
  end.

(** [{ ...x }] *)
Definition spread (x : option SortBy) : object :=
  match x with
  | Some sb => ObjectOf {| sort := sort sb; sortOrder := sortOrder sb |}
  | None => EmptyObject
  end.

(** ** The handlers

    [handleOnSortByChanged] reads a table and is defined with the
    component, below. *)

Local Open Scope js_scope.

Definition handleOnCreatedAfterChanged (value : string) : M unit :=
  invoke (onCreatedAfterChanged value).

Definition handleOnViewChanged (value : string) : M unit :=
  if strict_eq value "unread" then
    invoke (onUnreadOnlyChanged (Some true));;
    invoke (onSavedChanged None)
  else if strict_eq value "read" then
    invoke (onUnreadOnlyChanged (Some false));;
    invoke (onSavedChanged None)
  else if strict_eq value "saved" then
    invoke (onUnreadOnlyChanged None);;
    invoke (onSavedChanged (Some true))
  else
    invoke (onUnreadOnlyChanged None);;
    invoke (onSavedChanged None).


(** ** Rendering *)

(** [o === false] for an optional boolean prop. *)
Definition is_false (o : option bool) : bool :=
  match o with
  | Some false => true
  | _ => false
  end.

(** [let viewValue = 'all'; if (saved) ... else if (unreadOnly) ...
    else if (unreadOnly === false) ...] *)
Definition viewValue (saved unreadOnly : option bool) : string :=
  if truthy saved then "saved"
  else if truthy unreadOnly then "unread"
  else if is_false unreadOnly then "read"
  else "all".

(** The data props.  The four callback props are the constructors of
    [call]. *)
Record NotificationsFiltersProps := mkProps {
  unreadOnly : option bool;
  createdAfter : option string;
  sorting : SortBy;
  saved : option bool
}.

(** The three closures the component attaches to its selects. *)
Inductive handler : Type :=
  | HandleOnViewChanged
  | HandleOnCreatedAfterChanged
  | HandleOnSortByChanged.

#[export] Instance handler_eq_dec : EqDecision handler.
Proof. solve_decision. Defined.

(** Values of JSX attributes. *)
Inductive attribute : Type :=
  | Str (s : string)
  | OptStr (o : option string)
  | Num (n : Z)
  | Flag
  | OnChange (h : handler).

#[export] Instance attribute_eq_dec : EqDecision attribute.
Proof. solve_decision. Defined.

(** React elements: [<type attrs>children</type>] and text. *)
#[warning="-register-all"]
Inductive element : Type :=
  | Text (s : string)
  | Element (type : string) (attrs : list (string * attribute))
            (children : list element).

(** A JSX expression child [{e}]: [undefined] renders nothing. *)
Definition expression (o : option string) : list element :=
  match o with
  | Some s => [Text s]
  | None => []
  end.

(** [xs.map(f)] for a callback [f] that may throw. *)
Fixpoint array_map {A B} (f : A -> M B) (xs : list A) : M (list B) :=
  match xs with
  | [] => ret []
  | x :: xs' =>
      y <- f x;;
      ys <- array_map f xs';;
      ret (y :: ys)
  end.

(** [Object.keys(t).map(key => <MenuItem value={key} key={key}>
    {t[key].label}</MenuItem>)] *)
Definition menuItems {A} `{Labelled A} (t : table A) : M (list element) :=
  array_map
    (fun key =>
       text <- member (get t key) label;;
       ret (Element "MenuItem" [("value", Str key); ("key", Str key)]
                    (expression text)))
    (keys t).

Section Component.

(** The component closes over the two module-level tables.  They are
    section variables here, so that statements about which table data
    reaches the output can vary them; the component of the source is the
    instance at [CreatedAfterOptions] and [SortByOptions]. *)
Variable createdAfterOptions : table CreatedAfterOption.
Variable sortByOptions : table SortByOption.

Definition handleOnSortByChanged (value : string) : M unit :=
  let idx := or_else value "newest" in
  let option := get sortByOptions idx in
  sb <- member option sortBy;;
  invoke (onSortingChanged (spread sb)).

(** The closure behind each [onChange]. *)
Definition onChange (h : handler) (value : string) : M unit :=
  match h with
  | HandleOnViewChanged => handleOnViewChanged value
  | HandleOnCreatedAfterChanged => handleOnCreatedAfterChanged value
  | HandleOnSortByChanged => handleOnSortByChanged value
  end.

Definition NotificationsFilters (props : NotificationsFiltersProps)
  : M element :=
  let sortByText := getSortByText (Some (sorting props)) in
  let viewValue := viewValue (saved props) (unreadOnly props) in
  createdAfterItems <- menuItems createdAfterOptions;;
  sortByItems <- menuItems sortByOptions;;
  ret
    (Element "Fragment" []
      [ Element "Grid" [("container", Flag)]
        [ Element "Grid" [("item", Flag); ("xs", Num 12)]
            [ Element "Typography" [("variant", Str "h6")] [Text "Filters"];
              Element "Divider" [("variant", Str "fullWidth")] [] ];
          Element "Grid" [("item", Flag); ("xs", Num 12)]
            [ Element "FormControl"
                [("fullWidth", Flag); ("variant", Str "outlined");
                 ("size", Str "small")]
                [ Element "InputLabel"
                    [("id", Str "notifications-filter-view")]
                    [Text "View"];
                  Element "Select"
                    [("labelId", Str "notifications-filter-view");
                     ("label", Str "View");
                     ("value", Str viewValue);
                     ("onChange", OnChange HandleOnViewChanged)]
                    [ Element "MenuItem" [("value", Str "unread")]
                        [Text "New only"];
                      Element "MenuItem" [("value", Str "saved")]
                        [Text "Saved"];
                      Element "MenuItem" [("value", Str "read")]
                        [Text "Marked as read"];
                      Element "MenuItem" [("value", Str "all")]
                        [Text "All"] ] ] ];
          Element "Grid" [("item", Flag); ("xs", Num 12)]
            [ Element "FormControl"
                [("fullWidth", Flag); ("variant", Str "outlined");
                 ("size", Str "small")]
                [ Element "InputLabel"
                    [("id", Str "notifications-filter-view")]
                    [Text "Created after"];
                  Element "Select"
                    [("label", Str "Created after");
                     ("placeholder", Str "Notifications since");
                     ("value", OptStr (createdAfter props));
                     ("onChange", OnChange HandleOnCreatedAfterChanged)]
                    createdAfterItems ] ];
          Element "Grid" [("item", Flag); ("xs", Num 12)]
            [ Element "FormControl"
                [("fullWidth", Flag); ("variant", Str "outlined");
                 ("size", Str "small")]
                [ Element "InputLabel"
                    [("id", Str "notifications-filter-sort")]
                    [Text "Sort by"];
                  Element "Select"
                    [("label", Str "Sort by");
                     ("placeholder", Str "Field to sort by");
                     ("value", Str sortByText);
                     ("onChange", OnChange HandleOnSortByChanged)]
                    sortByItems ] ] ] ]).

End Component.

(** *** Reading a rendered tree *)

Fixpoint attr (name : string) (attrs : list (string * attribute))
  : option attribute :=
  match attrs with
  | [] => None
  | (n, a) :: rest => if strict_eq name n then Some a else attr name rest
  end.

(** All elements of a given type, in document order. *)
Fixpoint descendants (type : string) (e : element) : list element :=
  match e with
  | Text _ => []
  | Element ty attrs children =>
      (if strict_eq ty type then [e] else [])
      ++ (fix go (es : list element) : list element :=
            match es with
            | [] => []
            | c :: es' => descendants type c ++ go es'
            end) children
  end%list.

(** The select carrying a given [label] attribute. *)
Definition selectLabelled (l : string) (e : element) : option element :=
  List.find
    (fun s => match s with
              | Element _ attrs _ =>
                  bool_decide (attr "label" attrs = Some (Str l))
              | Text _ => false
              end)
    (descendants "Select" e).

Definition attribute_of (name : string) (e : element) : option attribute :=
  match e with
  | Element _ attrs _ => attr name attrs
  | Text _ => None
  end.

Definition children_of (e : element) : list element :=
  match e with
  | Element _ _ children => children
  | Text _ => []
  end.

(** The [value] attributes of the menu items offered by a select. *)
Definition offered (select : element) : list attribute :=
  omap (attribute_of "value") (children_of select).

(** The tree a render produced, if it completed. *)
Definition rendered {A} (m : M A) : option A :=
  match m.2 with
  | Normal a => Some a
  | Throw _ => None
  end.

(** ** The tables as shared objects

    The definitions above treat a [SortBy] as a value.  In the running
    program the [sortBy] of a table entry is an object with an identity:
    whoever holds a reference to it can assign to its fields.  This module
    replays [handleOnSortByChanged] over a store of objects, with the parent
    callback as an arbitrary store transformer, to follow which references
    the handler hands out. *)
Module Store.

Definition loc : Type := nat.

Abbreviation heap := (gmap loc object).

#[export] Instance object_inhabited : Inhabited object :=
  populate EmptyObject.

(** A table entry whose [sortBy] is a reference into the store. *)
Record stored_option := mkStored {
  stored_label : string;
  sortBy_ref : loc
}.

(** Evaluating the object literal [SortByOptions] allocates the [sortBy]
    object of each entry, in order. *)
Fixpoint allocate (t : table SortByOption) (h : heap)
  : table stored_option * heap :=
  match t with
  | [] => ([], h)
  | (k, e) :: t' =>
      let l := fresh (dom h) in
      let '(refs, h') := allocate t' (<[l := ObjectOf (sortBy e)]> h) in
      ((k, {| stored_label := label e; sortBy_ref := l |}) :: refs, h')
  end.

Definition SortByOptions_stored : table stored_option :=
  (allocate SortByOptions ∅).1.

Definition initial_heap : heap := (allocate SortByOptions ∅).2.

(** The [sortBy] objects the table refers to. *)
Definition table_objects : list loc :=
  (fun kv => sortBy_ref kv.2) <$> SortByOptions_stored.

(** [{ ...o }] for the object behind a reference: a new object with the
    current fields of [o]. *)
Definition spread_at (h : heap) (r : option loc) : object :=
  match r with
  | Some l =>
      match h !!! l with
      | ObjectOf sb =>
          ObjectOf {| sort := sort sb; sortOrder := sortOrder sb |}
      | EmptyObject => EmptyObject
      end
  | None => EmptyObject
  end.

(** [{ ...option.sortBy }] for the selected option: the reference to the
    new object and the store that holds it. *)
Definition sortingArgument (value : string) (h : heap)
  : completion (loc * heap) :=
  let idx := or_else value "newest" in
  let option := get SortByOptions_stored idx in
  match option with
  | Undefined => Throw TypeError
  | Own e =>
      let l := fresh (dom h) in
      Normal (l, <[l := spread_at h (Some (sortBy_ref e))]> h)
  | Inherited =>
      let l := fresh (dom h) in
      Normal (l, <[l := spread_at h None]> h)
  end.

(** The handler over the store.  [onSortingChanged] is the parent's
    callback: it receives the reference to the new object. *)
Definition handleOnSortByChanged (onSortingChanged : loc → heap → heap)
    (value : string) (h : heap) : heap * completion unit :=
  match sortingArgument value h with
  | Normal (l, h') => (onSortingChanged l h', Normal tt)
  | Throw e => (h, Throw e)
  end.

(** The effect on the store of a callback invocation of the handlers
    above: only [onSortingChanged] receives an object, which is allocated
    for it. *)
Definition perform (parent : loc → heap → heap) (c : call) (h : heap)
  : heap :=
  match c with
  | onSortingChanged o => let l := fresh (dom h) in parent l (<[l := o]> h)
  | _ => h
  end.

(** A handler outcome played on the store. *)
Definition play (parent : loc → heap → heap) (m : M unit) (h : heap)
  : heap * completion unit :=
  (foldl (fun h c => perform parent c h) h (calls m), m.2).

(** A sequence of sort-change events, each with the callback the parent
    supplied for that render.  An event whose handler throws leaves the
    store as it was. *)
Definition sortChanges (events : list ((loc → heap → heap) * string))
    (h : heap) : heap :=
  foldl (fun h ev => (handleOnSortByChanged ev.1 ev.2 h).1) h events.

(** A parent callback that reaches the objects of the table only through
    the reference it is called with: every table object other than its
    argument is left as it is.  What it does to its argument, and to any
    other object, is not constrained. *)
Definition reaches_only_argument (cb : loc → heap → heap) : Prop :=
  ∀ l h r, r ∈ table_objects → r ≠ l → cb l h !! r = h !! r.

(** The [sortBy] objects of the table hold what the source wrote. *)
Definition table_intact (h : heap) : Prop :=
  ∀ r, r ∈ table_objects → h !! r = initial_heap !! r.

End Store.

(** ** Vocabulary of the properties *)

(** The four callback props. *)
Inductive callback : Type :=
  | OnUnreadOnlyChanged
  | OnSavedChanged
  | OnCreatedAfterChanged
  | OnSortingChanged.

#[export] Instance callback_eq_dec : EqDecision callback.
Proof. solve_decision. Defined.

Definition callback_of (c : call) : callback :=
  match c with
  | onUnreadOnlyChanged _ => OnUnreadOnlyChanged
  | onSavedChanged _ => OnSavedChanged
  | onCreatedAfterChanged _ => OnCreatedAfterChanged
  | onSortingChanged _ => OnSortingChanged
  end.

(** How many times a callback was invoked. *)
Definition invoked (cb : callback) (t : list call) : nat :=
  length (filter (fun c => callback_of c = cb) t).

(** The JavaScript value a callback was invoked with. *)
Inductive argument : Type :=
  | ArgUndefined
  | ArgBoolean (b : bool)
  | ArgString (s : string)
  | ArgObject (o : object).

Definition optional_boolean (o : option bool) : argument :=
  match o with
  | Some b => ArgBoolean b
  | None => ArgUndefined
  end.

Definition argument_of (c : call) : argument :=
  match c with
  | onUnreadOnlyChanged checked => optional_boolean checked
  | onSavedChanged checked => optional_boolean checked
  | onCreatedAfterChanged value => ArgString value
  | onSortingChanged o => ArgObject o
  end.

(** A handler forwards its event verbatim when it completes, calls
    something, and every call it makes carries the event's value itself. *)
Definition forwards_verbatim (h : string → M unit) : Prop :=
  ∀ value,
    completes (h value)
    ∧ calls (h value) ≠ []
    ∧ ∀ c, c ∈ calls (h value) → argument_of c = ArgString value.

(** A handler is total when it completes normally on every event value. *)
Definition total (h : string → M unit) : Prop :=
  ∀ value, completes (h value).

(** What a table offers for display: its keys, in order, each with the
    label of its entry. *)
Definition labels {A} `{Labelled A} (t : table A) : list (string * string) :=
  (fun kv => (kv.1, label kv.2)) <$> t.

(** The component consumes its tables for labels only when its rendered
    output and the outcome of each of its handlers are the same for any two
    pairs of tables that offer the same keys and labels. *)
Definition consumes_labels_only : Prop :=
  ∀ (ca1 ca2 : table CreatedAfterOption) (sb1 sb2 : table SortByOption),
    labels ca1 = labels ca2 →
    labels sb1 = labels sb2 →
    (∀ props, NotificationsFilters ca1 sb1 props
              = NotificationsFilters ca2 sb2 props)
    ∧ (∀ h value, onChange sb1 h value = onChange sb2 h value).

(** [SortByOptions] with the same keys and labels and every sort order
    turned around. *)
Definition SortByOptions_turned : table SortByOption :=
  (fun kv =>
     (kv.1,
      {| sortBy_label := label kv.2;
         sortBy :=
           {| sort := sort (sortBy kv.2);
              sortOrder :=
                if strict_eq (sortOrder (sortBy kv.2)) "asc"
                then "desc" else "asc" |} |}))
  <$> SortByOptions.

(** A parent that overwrites both fields of the object it is handed. *)
Definition overwriting_parent : Store.loc → Store.heap → Store.heap :=
  fun l h => <[l := ObjectOf {| sort := "origin"; sortOrder := "desc" |}]> h.

(** The value attribute of the select with a given label in the tree the
    component renders. *)
Definition displayed (l : string) (m : M element) : option attribute :=
  e ← rendered m; s ← selectLabelled l e; attribute_of "value" s.

(** The entries stored under a key. *)
Definition entries_under {A} (t : table A) (k : string) : list A :=
  (filter (fun kv => kv.1 = k) t).*2.

(** Four sort-change events: a key, the empty value, a string that is no
    key, and an inherited name; the parent overwrites what it receives. *)
Definition overwriting_events
  : list ((Store.loc → Store.heap → Store.heap) * string) :=
  [ (overwriting_parent, "oldest"); (overwriting_parent, "");
    (overwriting_parent, "severity"); (overwriting_parent, "toString") ].


(** The handler attached as [onChange] to the select with a given label in
    the tree the component renders. *)
Definition handlerOf (l : string) (m : M element) : option handler :=
  e ← rendered m;
  s ← selectLabelled l e;
  match attribute_of "onChange" s with
  | Some (OnChange h) => Some h
  | _ => None
  end.

(** The values of an attribute over all elements of a type, in document
    order; [None] where an element lacks the attribute. *)
Definition attributes (type name : string) (e : element)
  : list (option attribute) :=
  attribute_of name <$> descendants type e.

(** The menu item rendered for a key and the text of its label. *)
Definition menuItem (key text : string) : element :=
  Element "MenuItem" [("value", Str key); ("key", Str key)] [Text text].

(** * Properties *)

(** ** Basic facts *)

Lemma strict_eq_true x lit : strict_eq x lit = true ↔ x = lit.
Proof. apply String.eqb_eq. Qed.

Lemma strict_eq_false x lit : strict_eq x lit = false ↔ x ≠ lit.
Proof. apply String.eqb_neq. Qed.

Lemma strict_eq_refl x : strict_eq x x = true.
Proof. apply String.eqb_refl. Qed.

Lemma strict_eq_reflect x lit : reflect (x = lit) (strict_eq x lit).
Proof. apply String.eqb_spec. Qed.

Lemma or_else_nonempty s fallback : s ≠ "" → or_else s fallback = s.
Proof.
  intros Hs. unfold or_else.
  destruct (strict_eq_reflect s ""); [contradiction | reflexivity].
Qed.

Lemma own_property_Some_elem {A} (t : table A) k a :
  own_property t k = Some a → (k, a) ∈ t.
Proof.
  induction t as [|[k' a'] t IH]; simpl; [discriminate|].
  destruct (strict_eq_reflect k k') as [->|Hne].
  - intros [= ->]. apply list_elem_of_here.
  - intros H. apply list_elem_of_further. auto.
Qed.

Lemma own_property_None {A} (t : table A) k :
  own_property t k = None ↔ k ∉ keys t.
Proof.
  unfold keys. induction t as [|[k' a'] t IH]; simpl.
  - split; [intros _; apply not_elem_of_nil | reflexivity].
  - rewrite not_elem_of_cons.
    destruct (strict_eq_reflect k k') as [->|Hne]; split.
    + discriminate.
    + intros [? _]. congruence.
    + intros H. split; [assumption | by apply IH].
    + intros [_ H]. by apply IH.
Qed.

Lemma own_property_is_Some {A} (t : table A) k :
  is_Some (own_property t k) ↔ k ∈ keys t.
Proof.
  destruct (own_property t k) eqn:E.
  - split; [intros _ | eauto].
    apply own_property_Some_elem in E.
    unfold keys. apply list_elem_of_fmap. by exists (k, a).
  - split; [intros [? [=]] |].
    intros Hin. by apply own_property_None in E.
Qed.

(** The first entry under a key is the only one when keys do not repeat. *)
Lemma own_property_elem {A} (t : table A) k a :
  NoDup (keys t) → (k, a) ∈ t → own_property t k = Some a.
Proof.
  unfold keys. induction t as [|[k' a'] t IH]; simpl.
  - intros _ H. by apply elem_of_nil in H.
  - intros Hnd Hin. apply NoDup_cons in Hnd as [Hk' Hnd].
    apply elem_of_cons in Hin as [[= -> ->]|Hin].
    + by rewrite strict_eq_refl.
    + destruct (strict_eq_reflect k k') as [->|Hne]; [|auto].
      exfalso. apply Hk'. apply list_elem_of_fmap. by exists (k', a).
Qed.

(** ** The view select *)

(** Every outcome of [handleOnViewChanged], by cases on the comparisons the
    source makes. *)
Lemma handleOnViewChanged_cases value :
  handleOnViewChanged value =
    ([ onUnreadOnlyChanged
         (if strict_eq value "unread" then Some true
          else if strict_eq value "read" then Some false
          else None);
       onSavedChanged
         (if strict_eq value "unread" then None
          else if strict_eq value "read" then None
          else if strict_eq value "saved" then Some true
          else None) ],
     Normal tt).
Proof.
  unfold handleOnViewChanged.
  destruct (strict_eq value "unread"); [reflexivity|].
  destruct (strict_eq value "read"); [reflexivity|].
  destruct (strict_eq value "saved"); reflexivity.
Qed.

(** C4: a view-change event with value 'unread' calls
    onUnreadOnlyChanged(true) and onSavedChanged(undefined); 'read' calls
    onUnreadOnlyChanged(false) and onSavedChanged(undefined); 'saved' calls
    onUnreadOnlyChanged(undefined) and onSavedChanged(true); any other value
    calls both with undefined; in every case the handler completes and each
    of the two callbacks is invoked exactly once, and no other callback is
    invoked. *)
Theorem view_change_selects_flags (value : string) :
  (value = "unread" →
     handleOnViewChanged value
     = ([onUnreadOnlyChanged (Some true); onSavedChanged None], Normal tt))
  ∧ (value = "read" →
     handleOnViewChanged value
     = ([onUnreadOnlyChanged (Some false); onSavedChanged None], Normal tt))
  ∧ (value = "saved" →
     handleOnViewChanged value
     = ([onUnreadOnlyChanged None; onSavedChanged (Some true)], Normal tt))
  ∧ (value ≠ "unread" → value ≠ "read" → value ≠ "saved" →
     handleOnViewChanged value
     = ([onUnreadOnlyChanged None; onSavedChanged None], Normal tt))
  ∧ invoked OnUnreadOnlyChanged (calls (handleOnViewChanged value)) = 1
  ∧ invoked OnSavedChanged (calls (handleOnViewChanged value)) = 1
  ∧ length (calls (handleOnViewChanged value)) = 2
  ∧ completes (handleOnViewChanged value).
Proof.
  repeat split.
  - intros ->. reflexivity.
  - intros ->. reflexivity.
  - intros ->. reflexivity.
  - intros H1 H2 H3. rewrite handleOnViewChanged_cases.
    apply strict_eq_false in H1, H2, H3. by rewrite H1, H2, H3.
  - by rewrite handleOnViewChanged_cases.
  - by rewrite handleOnViewChanged_cases.
  - by rewrite handleOnViewChanged_cases.
  - rewrite handleOnViewChanged_cases. by exists tt.
Qed.

Lemma view_change_selects_flags_witness :
  handleOnViewChanged "saved"
  = ([onUnreadOnlyChanged None; onSavedChanged (Some true)], Normal tt)
  ∧ handleOnViewChanged "all"
    = ([onUnreadOnlyChanged None; onSavedChanged None], Normal tt).
Proof.
  split.
  - apply (proj1 (proj2 (proj2 (view_change_selects_flags "saved")))).
    reflexivity.
  - apply (proj1 (proj2 (proj2 (proj2 (view_change_selects_flags "all")))));
      discriminate.
Defined.

(** The tree the component renders: it always completes, invokes nothing,
    and shows the derived values. *)
Lemma NotificationsFilters_shows props :
  let m := NotificationsFilters CreatedAfterOptions SortByOptions props in
  completes m
  ∧ calls m = []
  ∧ displayed "View" m
    = Some (Str (viewValue (saved props) (unreadOnly props)))
  ∧ displayed "Created after" m = Some (OptStr (createdAfter props))
  ∧ displayed "Sort by" m = Some (Str (getSortByText (Some (sorting props)))).
Proof.
  repeat split.
  eexists. reflexivity.
Qed.

(** C7: the displayed view value gives precedence to the saved flag: it is
    'saved' whenever saved [s] is true, whatever unreadOnly [u] is; otherwise
    'unread' when unreadOnly is true; otherwise 'read' when unreadOnly is
    exactly false; otherwise 'all' (in particular when both props are
    undefined); and this is the value the View select is rendered with. *)
Theorem viewValue_precedence (s u : option bool) :
  (s = Some true → viewValue s u = "saved")
  ∧ (s ≠ Some true → u = Some true → viewValue s u = "unread")
  ∧ (s ≠ Some true → u = Some false → viewValue s u = "read")
  ∧ (s ≠ Some true → u = None → viewValue s u = "all")
  ∧ viewValue None None = "all"
  ∧ ∀ props,
      saved props = s →
      unreadOnly props = u →
      displayed "View"
        (NotificationsFilters CreatedAfterOptions SortByOptions props)
      = Some (Str (viewValue s u)).
Proof.
  repeat split.
  - intros ->. reflexivity.
  - intros Hs ->. by destruct s as [[]|].
  - intros Hs ->. by destruct s as [[]|].
  - intros Hs ->. by destruct s as [[]|].
  - intros props <- <-. apply NotificationsFilters_shows.
Qed.

Lemma viewValue_precedence_witness :
  viewValue (Some true) (Some true) = "saved"
  ∧ viewValue (Some false) (Some true) = "unread"
  ∧ viewValue None (Some false) = "read"
  ∧ viewValue (Some false) None = "all".
Proof.
  split; [|split; [|split]].
  - apply (proj1 (viewValue_precedence (Some true) (Some true))).
    reflexivity.
  - apply (proj1 (proj2 (viewValue_precedence (Some false) (Some true))));
      [discriminate | reflexivity].
  - apply (proj1 (proj2 (proj2 (viewValue_precedence None (Some false)))));
      [discriminate | reflexivity].
  - apply (proj1 (proj2 (proj2 (proj2
             (viewValue_precedence (Some false) None)))));
      [discriminate | reflexivity].
Defined.

(** ** The sort-by text *)

Lemma keys_SortByOptions :
  keys SortByOptions = ["newest"; "oldest"; "topic"; "origin"].
Proof. reflexivity. Qed.

Lemma keys_CreatedAfterOptions :
  keys CreatedAfterOptions = ["last24h"; "lastWeek"; "all"].
Proof. reflexivity. Qed.

(** [getSortByText] by cases on the fields of a [SortBy]. *)
Lemma getSortByText_Some sb :
  getSortByText (Some sb) =
    if strict_eq (sort sb) "created" && strict_eq (sortOrder sb) "asc"
    then "oldest"
    else if strict_eq (sort sb) "topic" then "topic"
    else if strict_eq (sort sb) "origin" then "origin"
    else "newest".
Proof. reflexivity. Qed.

(** C8: getSortByText is total over optional SortBy values and defaults to
    'newest': it returns 'newest' for undefined and for any SortBy whose
    fields match none of the patterns (sort 'created' with sortOrder 'asc',
    sort 'topic', sort 'origin'); consequently, for every input, it returns
    one of the four keys 'newest', 'oldest', 'topic', 'origin' of
    SortByOptions. *)
Theorem getSortByText_default (sortBy : option SortBy) :
  (sortBy = None → getSortByText sortBy = "newest")
  ∧ (∀ sb, sortBy = Some sb →
       ¬ (sort sb = "created" ∧ sortOrder sb = "asc") →
       sort sb ≠ "topic" → sort sb ≠ "origin" →
       getSortByText sortBy = "newest")
  ∧ getSortByText sortBy ∈ keys SortByOptions
  ∧ getSortByText sortBy ∈ ["newest"; "oldest"; "topic"; "origin"].
Proof.
  split; [|split].
  - intros ->. reflexivity.
  - intros sb -> Hold Htopic Horigin. rewrite getSortByText_Some.
    apply strict_eq_false in Htopic, Horigin. rewrite Htopic, Horigin.
    destruct (strict_eq_reflect (sort sb) "created") as [Hc|Hc];
      [|reflexivity].
    destruct (strict_eq_reflect (sortOrder sb) "asc") as [Ha|Ha];
      [|reflexivity].
    exfalso. by apply Hold.
  - rewrite keys_SortByOptions.
    assert (getSortByText sortBy ∈ ["newest"; "oldest"; "topic"; "origin"])
      as H; [|by split].
    destruct sortBy as [sb|]; [|set_solver].
    rewrite getSortByText_Some.
    destruct (strict_eq (sort sb) "created" && strict_eq (sortOrder sb) "asc");
      [set_solver|].
    destruct (strict_eq (sort sb) "topic"); [set_solver|].
    destruct (strict_eq (sort sb) "origin"); set_solver.
Qed.

Lemma getSortByText_default_witness :
  getSortByText None = "newest"
  ∧ getSortByText (Some {| sort := "created"; sortOrder := "desc" |})
    = "newest"
  ∧ getSortByText (Some {| sort := "severity"; sortOrder := "asc" |})
    = "newest".
Proof.
  split; [|split].
  - apply (proj1 (getSortByText_default None)). reflexivity.
  - apply (proj1 (proj2 (getSortByText_default
             (Some {| sort := "created"; sortOrder := "desc" |})))
             {| sort := "created"; sortOrder := "desc" |});
      [reflexivity | intros [_ [=]] | discriminate | discriminate].
  - apply (proj1 (proj2 (getSortByText_default
             (Some {| sort := "severity"; sortOrder := "asc" |})))
             {| sort := "severity"; sortOrder := "asc" |});
      [reflexivity | intros [[=] _] | discriminate | discriminate].
Defined.

(** The outcome of [handleOnSortByChanged] on a key of the table. *)
Lemma handleOnSortByChanged_own (t : table SortByOption) value e :
  own_property t (or_else value "newest") = Some e →
  handleOnSortByChanged t value
  = ([onSortingChanged (ObjectOf (sortBy e))], Normal tt).
Proof.
  intros H. unfold handleOnSortByChanged, get. rewrite H. simpl.
  by destruct (sortBy e).
Qed.

(** C6: sort selection round-trips through the display mapping: for every
    key k of SortByOptions, getSortByText(SortByOptions[k].sortBy) is k;
    so when the user picks the option k, the handler passes a SortBy to
    onSortingChanged, and a render whose sorting prop is that SortBy shows
    k in the sort-by select. *)
Theorem sort_selection_roundtrip (k : string) (e : SortByOption) :
  (k, e) ∈ SortByOptions →
  get SortByOptions k = Own e
  ∧ getSortByText (Some (sortBy e)) = k
  ∧ ∃ chosen,
      handleOnSortByChanged SortByOptions k
      = ([onSortingChanged (ObjectOf chosen)], Normal tt)
      ∧ ∀ props,
          sorting props = chosen →
          displayed "Sort by"
            (NotificationsFilters CreatedAfterOptions SortByOptions props)
          = Some (Str k).
Proof.
  intros Hin.
  assert (getSortByText (Some (sortBy e)) = k
          ∧ own_property SortByOptions k = Some e ∧ k ≠ "")
    as (Htext & Hown & Hk).
  { unfold SortByOptions in Hin.
    repeat (apply elem_of_cons in Hin as [[= -> ->]|Hin];
            [by repeat split|]).
    by apply elem_of_nil in Hin. }
  split; [by unfold get; rewrite Hown|].
  split; [exact Htext|].
  exists (sortBy e). split.
  - apply handleOnSortByChanged_own. by rewrite or_else_nonempty.
  - intros props Hprops.
    destruct (NotificationsFilters_shows props) as (_ & _ & _ & _ & ->).
    by rewrite Hprops, Htext.
Qed.

Lemma sort_selection_roundtrip_witness :
  getSortByText (Some {| sort := "created"; sortOrder := "asc" |}) = "oldest".
Proof.
  refine (proj1 (proj2 (sort_selection_roundtrip "oldest"
           {| sortBy_label := "Oldest on top";
              sortBy := {| sort := "created"; sortOrder := "asc" |} |} _))).
  unfold SortByOptions. apply list_elem_of_further, list_elem_of_here.
Defined.

(** ** Keys of the tables *)

(** C10: keys are unique within each lookup table: the keys of
    CreatedAfterOptions ('last24h', 'lastWeek', 'all') are pairwise distinct
    and the keys of SortByOptions ('newest', 'oldest', 'topic', 'origin')
    are pairwise distinct, each key has exactly one entry, which is the one
    a lookup by that key returns, and the menu items rendered for each of
    the two selects carry these keys as their values, pairwise distinct. *)
Theorem keys_unique :
  keys CreatedAfterOptions = ["last24h"; "lastWeek"; "all"]
  ∧ keys SortByOptions = ["newest"; "oldest"; "topic"; "origin"]
  ∧ NoDup (keys CreatedAfterOptions)
  ∧ NoDup (keys SortByOptions)
  ∧ Forall (fun k => length (entries_under CreatedAfterOptions k) = 1)
      (keys CreatedAfterOptions)
  ∧ Forall (fun k => length (entries_under SortByOptions k) = 1)
      (keys SortByOptions)
  ∧ (∀ k e, (k, e) ∈ CreatedAfterOptions → get CreatedAfterOptions k = Own e)
  ∧ (∀ k e, (k, e) ∈ SortByOptions → get SortByOptions k = Own e)
  ∧ ∀ props,
      let m := NotificationsFilters CreatedAfterOptions SortByOptions props in
      (offered <$> (rendered m ≫= selectLabelled "Created after")
       = Some (Str <$> keys CreatedAfterOptions))
      ∧ (offered <$> (rendered m ≫= selectLabelled "Sort by")
         = Some (Str <$> keys SortByOptions))
      ∧ (∀ items, offered <$> (rendered m ≫= selectLabelled "Created after")
                  = Some items → NoDup items)
      ∧ (∀ items, offered <$> (rendered m ≫= selectLabelled "Sort by")
                  = Some items → NoDup items).
Proof.
  assert (NoDup (keys CreatedAfterOptions)) as Hca.
  { rewrite keys_CreatedAfterOptions. by apply (bool_decide_unpack _). }
  assert (NoDup (keys SortByOptions)) as Hsb.
  { rewrite keys_SortByOptions. by apply (bool_decide_unpack _). }
  do 4 (split; [done|]).
  split; [repeat constructor|].
  split; [repeat constructor|].
  split; [intros k e Hin; unfold get; by rewrite (own_property_elem _ k e)|].
  split; [intros k e Hin; unfold get; by rewrite (own_property_elem _ k e)|].
  intros props m.
  assert (offered <$> (rendered m ≫= selectLabelled "Created after")
          = Some (Str <$> keys CreatedAfterOptions)) as Hcreated
    by reflexivity.
  assert (offered <$> (rendered m ≫= selectLabelled "Sort by")
          = Some (Str <$> keys SortByOptions)) as Hsort
    by reflexivity.
  do 2 (split; [done|]).
  split; intros items Hitems.
  - assert (items = Str <$> keys CreatedAfterOptions) as -> by congruence.
    apply NoDup_fmap_2; [by intros ?? [=] | exact Hca].
  - assert (items = Str <$> keys SortByOptions) as -> by congruence.
    apply NoDup_fmap_2; [by intros ?? [=] | exact Hsb].
Qed.

Lemma keys_unique_witness :
  get SortByOptions "topic"
  = Own {| sortBy_label := "Topic";
           sortBy := {| sort := "topic"; sortOrder := "asc" |} |}.
Proof.
  refine (proj1 (proj2 (proj2 (proj2 (proj2 (proj2 (proj2 (proj2
            keys_unique))))))) "topic" _ _).
  do 2 apply list_elem_of_further. apply list_elem_of_here.
Defined.

(** ** Which handlers forward, and which complete *)

Lemma get_not_Undefined {A} (t : table A) k :
  get t k ≠ Undefined ↔ k ∈ keys t ∨ k ∈ ObjectPrototype.
Proof.
  unfold get. destruct (own_property t k) eqn:E.
  - split; [intros _; left | discriminate].
    apply own_property_is_Some. by rewrite E.
  - apply own_property_None in E. case_bool_decide; split; try done.
    + by right.
    + intros [?|?]; contradiction.
Qed.

Lemma handleOnSortByChanged_completes (t : table SortByOption) value :
  completes (handleOnSortByChanged t value)
  ↔ get t (or_else value "newest") ≠ Undefined.
Proof.
  unfold handleOnSortByChanged.
  destruct (get t (or_else value "newest")); simpl; split; try done.
  - intros _. by exists tt.
  - intros _. by exists tt.
  - intros [? [=]].
Qed.

Lemma handleOnSortByChanged_throws (t : table SortByOption) value :
  get t (or_else value "newest") = Undefined →
  handleOnSortByChanged t value = ([], Throw TypeError).
Proof. intros H. unfold handleOnSortByChanged. by rewrite H. Qed.

(** C1 as stated fails: the view and sort-by handlers do not pass the
    event value on.  On 'unread' the view handler calls its callbacks with
    [true] and [undefined]; on 'oldest' the sort-by handler calls
    onSortingChanged with an object. *)
Lemma view_and_sort_do_not_forward_verbatim :
  handleOnViewChanged "unread"
  = ([onUnreadOnlyChanged (Some true); onSavedChanged None], Normal tt)
  ∧ handleOnSortByChanged SortByOptions "oldest"
    = ([onSortingChanged
          (ObjectOf {| sort := "created"; sortOrder := "asc" |})],
       Normal tt)
  ∧ ¬ forwards_verbatim handleOnViewChanged
  ∧ ¬ forwards_verbatim (handleOnSortByChanged SortByOptions).
Proof.
  split; [reflexivity|]. split; [reflexivity|]. split.
  - intros H. destruct (H "unread") as (_ & _ & Hall).
    specialize (Hall (onSavedChanged None)). simpl in Hall.
    discriminate Hall. apply list_elem_of_further, list_elem_of_here.
  - intros H. destruct (H "oldest") as (_ & _ & Hall).
    specialize (Hall (onSortingChanged
      (ObjectOf {| sort := "created"; sortOrder := "asc" |}))).
    simpl in Hall. discriminate Hall. apply list_elem_of_here.
Qed.

(** C1, amended: only the created-after handler forwards its event
    verbatim: it calls onCreatedAfterChanged once, with exactly the event's
    value.  The view handler calls onUnreadOnlyChanged and onSavedChanged
    with flags (true, false or undefined), never with the event value.  The
    sort-by handler uses the value (or 'newest' when it is empty) as a key
    of SortByOptions and calls onSortingChanged with a copy of the sortBy of
    that entry, never with the event value. *)
Theorem handlers_forwarding (value : string) :
  handleOnCreatedAfterChanged value
  = ([onCreatedAfterChanged value], Normal tt)
  ∧ forwards_verbatim handleOnCreatedAfterChanged
  ∧ (∃ unread saved,
       handleOnViewChanged value
       = ([onUnreadOnlyChanged unread; onSavedChanged saved], Normal tt))
  ∧ (∀ c, c ∈ calls (handleOnViewChanged value) →
          argument_of c ≠ ArgString value)
  ∧ (∀ e, get SortByOptions (or_else value "newest") = Own e →
          handleOnSortByChanged SortByOptions value
          = ([onSortingChanged (ObjectOf (sortBy e))], Normal tt))
  ∧ (∀ c, c ∈ calls (handleOnSortByChanged SortByOptions value) →
          argument_of c ≠ ArgString value).
Proof.
  split; [reflexivity|]. split.
  { intros v. split; [by exists tt|]. split; [done|].
    intros c Hc. apply list_elem_of_singleton in Hc as ->. reflexivity. }
  split.
  { rewrite handleOnViewChanged_cases. eauto. }
  split.
  { rewrite handleOnViewChanged_cases. simpl. intros c Hc.
    apply elem_of_cons in Hc as [->|Hc];
      [|apply list_elem_of_singleton in Hc as ->]; simpl.
    - by repeat case_match.
    - by repeat case_match. }
  split.
  { intros e He. apply handleOnSortByChanged_own.
    unfold get in He. destruct (own_property _ _); [congruence|].
    by case_bool_decide. }
  unfold handleOnSortByChanged.
  destruct (get SortByOptions (or_else value "newest")); simpl;
    intros c Hc.
  - apply list_elem_of_singleton in Hc as ->. done.
  - apply list_elem_of_singleton in Hc as ->. done.
  - by apply elem_of_nil in Hc.
Qed.

Lemma handlers_forwarding_witness :
  handleOnSortByChanged SortByOptions ""
  = ([onSortingChanged
        (ObjectOf {| sort := "created"; sortOrder := "desc" |})],
     Normal tt).
Proof.
  refine (proj1 (proj2 (proj2 (proj2 (proj2 (handlers_forwarding "")))))
            {| sortBy_label := "Newest on top";
               sortBy := {| sort := "created"; sortOrder := "desc" |} |} _).
  reflexivity.
Defined.

(** C2 as stated fails: on a string that is neither a key of SortByOptions
    nor a name inherited from Object.prototype the lookup SortByOptions[idx]
    is undefined, and reading its sortBy throws before any callback is
    invoked. *)
Lemma sort_handler_throws_on_unknown_key :
  get SortByOptions (or_else "severity" "newest") = Undefined
  ∧ handleOnSortByChanged SortByOptions "severity" = ([], Throw TypeError)
  ∧ ¬ total (handleOnSortByChanged SortByOptions).
Proof.
  split; [reflexivity|]. split; [reflexivity|].
  intros H. destruct (H "severity") as [? [=]].
Qed.

(** C2, amended: handleOnCreatedAfterChanged and handleOnViewChanged
    complete without error on every event value.  handleOnSortByChanged
    completes without error exactly when the event value is the empty string
    (which falls back to 'newest'), a key of SortByOptions, or a property
    name inherited from Object.prototype; this covers every value the
    rendered sort-by select offers.  On any other string SortByOptions[idx]
    is undefined and reading its sortBy throws a TypeError, with no callback
    invoked. *)
Theorem handlers_completion :
  total handleOnCreatedAfterChanged
  ∧ total handleOnViewChanged
  ∧ (∀ value,
       completes (handleOnSortByChanged SortByOptions value)
       ↔ value = "" ∨ value ∈ keys SortByOptions ∨ value ∈ ObjectPrototype)
  ∧ (∀ value,
       ¬ completes (handleOnSortByChanged SortByOptions value) →
       get SortByOptions (or_else value "newest") = Undefined
       ∧ handleOnSortByChanged SortByOptions value = ([], Throw TypeError))
  ∧ (∀ props items value,
       offered <$> (rendered (NotificationsFilters CreatedAfterOptions
                                SortByOptions props)
                    ≫= selectLabelled "Sort by") = Some items →
       Str value ∈ items →
       completes (onChange SortByOptions HandleOnSortByChanged value)).
Proof.
  assert (∀ value,
       completes (handleOnSortByChanged SortByOptions value)
       ↔ value = "" ∨ value ∈ keys SortByOptions ∨ value ∈ ObjectPrototype)
    as Hiff.
  { intros value. rewrite handleOnSortByChanged_completes, get_not_Undefined.
    unfold or_else. destruct (strict_eq_reflect value "") as [->|Hne].
    - split; [by left|]. intros _. left. rewrite keys_SortByOptions.
      apply list_elem_of_here.
    - split; [by right|]. by intros [?|?]. }
  split; [intros value; by exists tt|].
  split; [intros value; rewrite handleOnViewChanged_cases; by exists tt|].
  split; [exact Hiff|].
  split.
  - intros value Hnot.
    assert (get SortByOptions (or_else value "newest") = Undefined) as Hget.
    { destruct (get SortByOptions (or_else value "newest")) eqn:E; [..|done];
        exfalso; apply Hnot, handleOnSortByChanged_completes; by rewrite E. }
    split; [exact Hget | by apply handleOnSortByChanged_throws].
  - intros props items value Hitems Hin.
    assert (items = Str <$> keys SortByOptions) as ->.
    { assert (offered <$> (rendered (NotificationsFilters CreatedAfterOptions
                                SortByOptions props)
                    ≫= selectLabelled "Sort by")
              = Some (Str <$> keys SortByOptions)) as H by reflexivity.
      congruence. }
    apply list_elem_of_fmap in Hin as (k & [= <-] & Hk).
    apply Hiff. by right; left.
Qed.

Lemma handlers_completion_witness :
  completes (onChange SortByOptions HandleOnSortByChanged "topic").
Proof.
  refine (proj2 (proj2 (proj2 (proj2 handlers_completion)))
            {| unreadOnly := None; createdAfter := None;
               sorting := {| sort := "created"; sortOrder := "desc" |};
               saved := None |}
            [Str "newest"; Str "oldest"; Str "topic"; Str "origin"]
            "topic" _ _).
  - reflexivity.
  - do 2 apply list_elem_of_further. apply list_elem_of_here.
Defined.

(** ** What the component reads of its tables *)

Lemma array_map_ext {A B} (f g : A → M B) xs :
  (∀ x, f x = g x) → array_map f xs = array_map g xs.
Proof.
  intros Hfg. induction xs as [|x xs IH]; simpl; [reflexivity|].
  by rewrite Hfg, IH.
Qed.

Lemma keys_labels {A} `{Labelled A} (t : table A) : keys (labels t) = keys t.
Proof.
  unfold keys, labels. rewrite <- list_fmap_compose.
  by apply list_fmap_ext.
Qed.

Lemma own_property_labels {A} `{Labelled A} (t : table A) k :
  own_property (labels t) k = label <$> own_property t k.
Proof.
  induction t as [|[k' a] t IH]; simpl; [reflexivity|].
  by destruct (strict_eq k k').
Qed.

(** The label read for a menu item is the one listed by [labels]. *)
Lemma member_label {A} `{Labelled A} (t : table A) k :
  member (get t k) label = member (get (labels t) k) (fun l => l).
Proof.
  unfold get. rewrite own_property_labels.
  destruct (own_property t k); simpl; [reflexivity|].
  by case_bool_decide.
Qed.

(** The menu items rendered for a table are a function of its keys and
    labels. *)
Lemma menuItems_labels {A} `{Labelled A} (t1 t2 : table A) :
  labels t1 = labels t2 → menuItems t1 = menuItems t2.
Proof.
  intros Heq. unfold menuItems.
  rewrite <- (keys_labels t1), <- (keys_labels t2), Heq.
  apply array_map_ext. intros key.
  by rewrite (member_label t1), (member_label t2), Heq.
Qed.

Lemma labels_SortByOptions_turned :
  labels SortByOptions_turned = labels SortByOptions.
Proof. reflexivity. Qed.

(** C3 as stated fails: the sortBy of the selected entry of SortByOptions
    reaches onSortingChanged.  A table with the same keys and labels and
    other sortBy fields makes the sort-by handler pass another object. *)
Lemma sortBy_reaches_callback :
  labels SortByOptions_turned = labels SortByOptions
  ∧ handleOnSortByChanged SortByOptions "oldest"
    = ([onSortingChanged
          (ObjectOf {| sort := "created"; sortOrder := "asc" |})],
       Normal tt)
  ∧ handleOnSortByChanged SortByOptions_turned "oldest"
    = ([onSortingChanged
          (ObjectOf {| sort := "created"; sortOrder := "desc" |})],
       Normal tt)
  ∧ ¬ consumes_labels_only.
Proof.
  split; [reflexivity|]. split; [reflexivity|]. split; [reflexivity|].
  intros H.
  destruct (H CreatedAfterOptions CreatedAfterOptions
              SortByOptions_turned SortByOptions eq_refl
              labels_SortByOptions_turned) as [_ Hhandlers].
  specialize (Hhandlers HandleOnSortByChanged "oldest").
  discriminate Hhandlers.
Qed.

(** C3, amended: CreatedAfterOptions is consumed for its keys and labels
    only: the rendered output is the same for any two tables with the same
    keys and labels, whatever their getDate fields, and no handler reads the
    table.  SortByOptions is rendered from its keys and labels only, and the
    created-after and view handlers do not read it; but
    handleOnSortByChanged reads the sortBy field of the selected entry and
    passes a copy of it to onSortingChanged. *)
Theorem tables_consumption
    (ca1 ca2 : table CreatedAfterOption) (sb1 sb2 : table SortByOption) :
  labels ca1 = labels ca2 →
  labels sb1 = labels sb2 →
  (∀ props, NotificationsFilters ca1 sb1 props
            = NotificationsFilters ca2 sb2 props)
  ∧ (∀ h value, h ≠ HandleOnSortByChanged →
                onChange sb1 h value = onChange sb2 h value)
  ∧ (∀ value e, get sb1 (or_else value "newest") = Own e →
                onChange sb1 HandleOnSortByChanged value
                = ([onSortingChanged (ObjectOf (sortBy e))], Normal tt)).
Proof.
  intros Hca Hsb. split; [|split].
  - intros props. unfold NotificationsFilters.
    by rewrite (menuItems_labels ca1 ca2 Hca), (menuItems_labels sb1 sb2 Hsb).
  - intros h value Hh. by destruct h.
  - intros value e He. simpl. apply handleOnSortByChanged_own.
    unfold get in He. destruct (own_property _ _); [congruence|].
    by case_bool_decide.
Qed.

(** [CreatedAfterOptions] with every [getDate] replaced by the epoch. *)
Lemma tables_consumption_witness :
  NotificationsFilters
    ((fun kv => (kv.1, {| createdAfter_label := label kv.2;
                          getDate := fun _ => 0%Z |}))
     <$> CreatedAfterOptions)
    SortByOptions_turned
    {| unreadOnly := Some true; createdAfter := Some "all";
       sorting := {| sort := "topic"; sortOrder := "asc" |};
       saved := None |}
  = NotificationsFilters CreatedAfterOptions SortByOptions
      {| unreadOnly := Some true; createdAfter := Some "all";
         sorting := {| sort := "topic"; sortOrder := "asc" |};
         saved := None |}.
Proof.
  refine (proj1 (tables_consumption _ _ _ _ _ _) _); reflexivity.
Defined.

(** ** Rendering *)

(** C5: the component holds no state of its own beyond derived display
    values: for any two renders with equal props the derived display values
    (viewValue, sortByText) and the rendered output are identical; the
    selects show exactly the derived values; and rendering completes
    without invoking any of the supplied callbacks. *)
Theorem render_deterministic (p1 p2 : NotificationsFiltersProps) :
  unreadOnly p1 = unreadOnly p2 →
  createdAfter p1 = createdAfter p2 →
  sorting p1 = sorting p2 →
  saved p1 = saved p2 →
  let m1 := NotificationsFilters CreatedAfterOptions SortByOptions p1 in
  let m2 := NotificationsFilters CreatedAfterOptions SortByOptions p2 in
  viewValue (saved p1) (unreadOnly p1) = viewValue (saved p2) (unreadOnly p2)
  ∧ getSortByText (Some (sorting p1)) = getSortByText (Some (sorting p2))
  ∧ m1 = m2
  ∧ displayed "View" m1 = Some (Str (viewValue (saved p1) (unreadOnly p1)))
  ∧ displayed "Sort by" m1 = Some (Str (getSortByText (Some (sorting p1))))
  ∧ calls m1 = []
  ∧ completes m1.
Proof.
  intros Hu Hc Hs Hv m1 m2.
  destruct (NotificationsFilters_shows p1)
    as (Hdone & Hcalls & Hview & _ & Hsort).
  split; [by rewrite Hu, Hv|].
  split; [by rewrite Hs|].
  split; [|done].
  subst m1 m2. destruct p1, p2; simpl in *. by subst.
Qed.

Lemma render_deterministic_witness :
  calls (NotificationsFilters CreatedAfterOptions SortByOptions
           {| unreadOnly := Some false; createdAfter := Some "lastWeek";
              sorting := {| sort := "origin"; sortOrder := "asc" |};
              saved := Some true |}) = [].
Proof.
  refine (proj1 (proj2 (proj2 (proj2 (proj2 (proj2
            (render_deterministic
               {| unreadOnly := Some false; createdAfter := Some "lastWeek";
                  sorting := {| sort := "origin"; sortOrder := "asc" |};
                  saved := Some true |}
               {| unreadOnly := Some false; createdAfter := Some "lastWeek";
                  sorting := {| sort := "origin"; sortOrder := "asc" |};
                  saved := Some true |} _ _ _ _)))))));
    reflexivity.
Defined.

(** ** The tables under mutation by the parent *)

Lemma table_objects_allocated r :
  r ∈ Store.table_objects → is_Some (Store.initial_heap !! r).
Proof.
  revert r. apply Forall_forall.
  apply (bool_decide_unpack _). by vm_compute.
Qed.

Lemma keys_SortByOptions_stored :
  keys Store.SortByOptions_stored = keys SortByOptions.
Proof. by vm_compute. Qed.

(** Each entry of the table refers to an object holding its [sortBy]. *)
Lemma stored_entries :
  Forall2
    (fun kv ks =>
       kv.1 = ks.1
       ∧ Store.stored_label ks.2 = label kv.2
       ∧ Store.sortBy_ref ks.2 ∈ Store.table_objects
       ∧ Store.initial_heap !! Store.sortBy_ref ks.2
         = Some (ObjectOf (sortBy kv.2)))
    SortByOptions Store.SortByOptions_stored.
Proof.
  repeat (constructor;
          [repeat split; try reflexivity; by apply (bool_decide_unpack _)|]).
  constructor.
Qed.

Lemma table_intact_alive h r :
  Store.table_intact h → r ∈ Store.table_objects → r ∈ dom h.
Proof.
  intros Hh Hr. apply elem_of_dom. rewrite (Hh r Hr).
  by apply table_objects_allocated.
Qed.

(** The reference handed to the callback is new: it is none of the
    objects alive before the event, so none of the table's. *)
Lemma sortingArgument_fresh value h l h' :
  Store.sortingArgument value h = Normal (l, h') →
  (l ∉ dom h) ∧ ∃ o, h' = <[l := o]> h.
Proof.
  unfold Store.sortingArgument.
  destruct (get Store.SortByOptions_stored (or_else value "newest"));
    intros [= <- <-]; (split; [apply is_fresh | eauto]).
Qed.

(** One event keeps the table's objects as they are. *)
Lemma handleOnSortByChanged_intact cb value h :
  Store.reaches_only_argument cb →
  Store.table_intact h →
  Store.table_intact (Store.handleOnSortByChanged cb value h).1.
Proof.
  intros Hcb Hh. unfold Store.handleOnSortByChanged.
  destruct (Store.sortingArgument value h) as [[l h']|e] eqn:E;
    [|exact Hh].
  apply sortingArgument_fresh in E as (Hfresh & o & ->). simpl.
  intros r Hr.
  assert (r ≠ l) as Hne.
  { intros ->. apply Hfresh. by apply table_intact_alive. }
  rewrite (Hcb l _ r Hr Hne), lookup_insert_ne by done.
  by apply Hh.
Qed.

Lemma sortChanges_intact events h :
  Forall (fun ev => Store.reaches_only_argument ev.1) events →
  Store.table_intact h →
  Store.table_intact (Store.sortChanges events h).
Proof.
  intros Hevents. revert h.
  induction Hevents as [|[cb value] events Hcb _ IH]; intros h Hh;
    [exact Hh|].
  simpl. apply IH. by apply handleOnSortByChanged_intact.
Qed.

(** Reading the selected option out of a store whose table is intact
    gives the [sortBy] of the source table. *)
Lemma spread_at_intact h k e :
  Store.table_intact h →
  own_property SortByOptions k = Some e →
  ∃ s, own_property Store.SortByOptions_stored k = Some s
       ∧ Store.spread_at h (Some (Store.sortBy_ref s))
         = ObjectOf (sortBy e).
Proof.
  intros Hh He.
  assert (∀ r sb, r ∈ Store.table_objects →
                  Store.initial_heap !! r = Some (ObjectOf sb) →
                  Store.spread_at h (Some r) = ObjectOf sb) as Hread.
  { intros r sb Hr Hsb. unfold Store.spread_at.
    rewrite (lookup_total_correct h r (ObjectOf sb))
      by (by rewrite (Hh r Hr)).
    by destruct sb. }
  apply own_property_Some_elem in He. unfold SortByOptions in He.
  repeat (apply elem_of_cons in He as [[= -> ->]|He];
          [eexists; split; [reflexivity|];
           apply Hread; [by apply (bool_decide_unpack _) | reflexivity]|]).
  by apply elem_of_nil in He.
Qed.

(** On a store whose table is intact, the handler over the store does
    what the outcome of [handleOnSortByChanged] says: the same
    completion, and the same object handed to the callback, at a new
    reference. *)
Lemma handleOnSortByChanged_store cb value h :
  Store.table_intact h →
  Store.handleOnSortByChanged cb value h
  = Store.play cb (handleOnSortByChanged SortByOptions value) h.
Proof.
  intros Hh.
  unfold Store.handleOnSortByChanged, Store.sortingArgument, Store.play,
    handleOnSortByChanged, get.
  set (idx := or_else value "newest").
  destruct (own_property SortByOptions idx) as [e|] eqn:He.
  - destruct (spread_at_intact h idx e Hh He) as (s & -> & ->).
    simpl. by destruct (sortBy e).
  - apply own_property_None in He.
    rewrite <- keys_SortByOptions_stored in He.
    apply own_property_None in He. rewrite He.
    by case_bool_decide.
Qed.

(** C9: the lookup tables are immutable under every operation of the
    component: handleOnSortByChanged hands onSortingChanged a reference to
    a new object holding a copy of the selected sortBy, never a reference
    to an object of the table, so after any sequence of sort-change events
    the SortBy objects of SortByOptions hold what the source wrote, even
    if the parent mutates every object it receives. *)
Theorem tables_immutable
    (events : list ((Store.loc → Store.heap → Store.heap) * string)) :
  Forall (fun ev => Store.reaches_only_argument ev.1) events →
  let h := Store.sortChanges events Store.initial_heap in
  Store.table_intact h
  ∧ Forall2
      (fun kv ks =>
         kv.1 = ks.1
         ∧ h !! Store.sortBy_ref ks.2 = Some (ObjectOf (sortBy kv.2)))
      SortByOptions Store.SortByOptions_stored
  ∧ ∀ cb value l h',
      Store.sortingArgument value h = Normal (l, h') →
      (l ∉ Store.table_objects)
      ∧ (∀ r, r ∈ Store.table_objects → h' !! r = h !! r)
      ∧ Store.handleOnSortByChanged cb value h
        = Store.play cb (handleOnSortByChanged SortByOptions value) h.
Proof.
  intros Hevents h.
  assert (Store.table_intact h) as Hh.
  { apply sortChanges_intact; [exact Hevents | by intros r _]. }
  split; [exact Hh|]. split.
  - eapply Forall2_impl; [apply stored_entries|].
    intros kv ks (Hk & _ & Hin & Hinit). split; [exact Hk|].
    rewrite <- Hinit. by apply Hh.
  - intros cb value l h' Harg.
    apply sortingArgument_fresh in Harg as (Hfresh & o & ->).
    assert (∀ r, r ∈ Store.table_objects → r ≠ l) as Hne.
    { intros r Hr ->. apply Hfresh. by apply table_intact_alive. }
    split; [|split].
    + intros Hl. by apply (Hne l).
    + intros r Hr. rewrite lookup_insert_ne; [done|].
      intros <-. by apply (Hne l).
    + by apply handleOnSortByChanged_store.
Qed.

Lemma overwriting_parent_reaches_only_argument :
  Store.reaches_only_argument overwriting_parent.
Proof.
  intros l h r _ Hne. unfold overwriting_parent.
  by rewrite lookup_insert_ne.
Qed.

(** The parent of [overwriting_events] does change what it is handed: after
    the first event the new object holds the parent's fields, while the
    object of the 'oldest' entry holds the fields of the source. *)
Example overwriting_parent_mutates_copy :
  Store.sortChanges [(overwriting_parent, "oldest")] Store.initial_heap
  = <[4 := ObjectOf {| sort := "origin"; sortOrder := "desc" |}]>
      Store.initial_heap
  ∧ Store.initial_heap !! 1
    = Some (ObjectOf {| sort := "created"; sortOrder := "asc" |}).
Proof. split; by vm_compute. Qed.

Lemma tables_immutable_witness :
  Store.sortChanges overwriting_events Store.initial_heap !! 1
  = Store.initial_heap !! 1.
Proof.
  refine (proj1 (tables_immutable overwriting_events _) 1 _).
  - repeat constructor; apply overwriting_parent_reaches_only_argument.
  - by apply (bool_decide_unpack _).
Defined.

(** * Further properties of the component *)

(** ** The date cutoffs *)



(** ** The view select, both ways *)

Lemma viewValue_offered s u :
  viewValue s u ∈ ["unread"; "saved"; "read"; "all"].
Proof. destruct s as [[]|], u as [[]|]; vm_compute; set_solver. Qed.

(** The flags passed for an offered value display as that value. *)
Lemma handleOnViewChanged_shows value :
  value ∈ ["unread"; "saved"; "read"; "all"] →
  ∃ u s,
    handleOnViewChanged value
    = ([onUnreadOnlyChanged u; onSavedChanged s], Normal tt)
    ∧ viewValue s u = value.
Proof.
  intros Hin. eexists _, _. split; [apply handleOnViewChanged_cases|].
  repeat (apply elem_of_cons in Hin as [->|Hin]; [reflexivity|]).
  by apply elem_of_nil in Hin.
Qed.

(** X2: the view select round-trips: after a view-change event with one
    of the four offered values, the flags the handler passes to
    onUnreadOnlyChanged and onSavedChanged, taken as the props unreadOnly
    and saved, make the select display that same value; after any other
    value they make it display 'all'. *)
Theorem view_selection_roundtrip (value : string) :
  ∃ u s,
    handleOnViewChanged value
    = ([onUnreadOnlyChanged u; onSavedChanged s], Normal tt)
    ∧ (value ∈ ["unread"; "saved"; "read"; "all"] → viewValue s u = value)
    ∧ (value ∉ ["unread"; "saved"; "read"; "all"] → viewValue s u = "all")
    ∧ ∀ props,
        unreadOnly props = u →
        saved props = s →
        displayed "View"
          (NotificationsFilters CreatedAfterOptions SortByOptions props)
        = Some (Str (viewValue s u)).
Proof.
  eexists _, _. split; [apply handleOnViewChanged_cases|].
  split; [|split].
  - intros Hin.
    repeat (apply elem_of_cons in Hin as [->|Hin]; [reflexivity|]).
    by apply elem_of_nil in Hin.
  - intros Hout.
    destruct (strict_eq_reflect value "unread") as [->|_];
      [exfalso; apply Hout; set_solver|].
    destruct (strict_eq_reflect value "read") as [->|_];
      [exfalso; apply Hout; set_solver|].
    destruct (strict_eq_reflect value "saved") as [->|_];
      [exfalso; apply Hout; set_solver|].
    reflexivity.
  - intros props <- <-. apply NotificationsFilters_shows.
Qed.

Lemma view_selection_roundtrip_witness :
  ∃ u s,
    handleOnViewChanged "read"
    = ([onUnreadOnlyChanged u; onSavedChanged s], Normal tt)
    ∧ viewValue s u = "read".
Proof.
  destruct (view_selection_roundtrip "read") as (u & s & Hh & Hin & _).
  exists u, s. split; [exact Hh|]. apply Hin.
  do 2 apply list_elem_of_further. apply list_elem_of_here.
Defined.

(** X3: a view change never activates both filters and never passes
    false for saved: whatever the event value, onSavedChanged receives true
    or undefined, and whenever one of the two callbacks receives a defined
    flag the other receives undefined. *)
Theorem view_change_exclusive (value : string) :
  ∃ u s,
    handleOnViewChanged value
    = ([onUnreadOnlyChanged u; onSavedChanged s], Normal tt)
    ∧ s ≠ Some false
    ∧ (u = None ∨ s = None)
    ∧ (s = Some true ↔ value = "saved")
    ∧ (is_Some u ↔ value = "unread" ∨ value = "read").
Proof.
  eexists _, _. split; [apply handleOnViewChanged_cases|].
  destruct (strict_eq_reflect value "unread") as [->|Hu]; simpl.
  { split; [done|]. split; [by right|]. split; [done|].
    split; [by left | eauto]. }
  destruct (strict_eq_reflect value "read") as [->|Hr]; simpl.
  { split; [done|]. split; [by right|]. split; [done|].
    split; [by right | eauto]. }
  destruct (strict_eq_reflect value "saved") as [->|Hs]; simpl.
  { split; [done|]. split; [by left|]. split; [done|].
    split; [intros [? [=]] | intros [[=]|[=]]]. }
  split; [done|]. split; [by left|]. split; [done|].
  split; [intros [? [=]] | intros [?|?]; contradiction].
Qed.

(** X4: the view select always shows one of the four values it offers,
    whatever the props, and selecting the value it shows reproduces the
    display: the flags the handler passes for the displayed value display as
    that value again. *)
Theorem view_display_stable (props : NotificationsFiltersProps) :
  let m := NotificationsFilters CreatedAfterOptions SortByOptions props in
  let shown := viewValue (saved props) (unreadOnly props) in
  displayed "View" m = Some (Str shown)
  ∧ offered <$> (rendered m ≫= selectLabelled "View")
    = Some [Str "unread"; Str "saved"; Str "read"; Str "all"]
  ∧ shown ∈ ["unread"; "saved"; "read"; "all"]
  ∧ ∃ u s,
      handleOnViewChanged shown
      = ([onUnreadOnlyChanged u; onSavedChanged s], Normal tt)
      ∧ viewValue s u = shown.
Proof.
  intros m shown.
  split; [apply NotificationsFilters_shows|].
  split; [reflexivity|].
  split; [apply viewValue_offered|].
  apply handleOnViewChanged_shows, viewValue_offered.
Qed.

(** ** The sort-by select, both ways *)

(** X5: for any table whose keys do not repeat, a sort-change event has
    one of three outcomes, decided by the key [value || 'newest']: if the
    table has an entry under the key, onSortingChanged is called once with a
    copy of the sortBy of that entry; if it has none but the key is a
    property name inherited from Object.prototype, onSortingChanged is
    called once with an empty object, which has neither sort nor sortOrder;
    otherwise the handler throws a TypeError and calls nothing.  The empty
    value is handled as 'newest', and no other callback is ever invoked. *)
Theorem sort_change_outcomes (t : table SortByOption) (value : string) :
  NoDup (keys t) →
  let key := or_else value "newest" in
  (∀ e, (key, e) ∈ t →
        handleOnSortByChanged t value
        = ([onSortingChanged (ObjectOf (sortBy e))], Normal tt))
  ∧ (key ∉ keys t → key ∈ ObjectPrototype →
     handleOnSortByChanged t value
     = ([onSortingChanged EmptyObject], Normal tt))
  ∧ (key ∉ keys t → key ∉ ObjectPrototype →
     handleOnSortByChanged t value = ([], Throw TypeError))
  ∧ handleOnSortByChanged t "" = handleOnSortByChanged t "newest"
  ∧ invoked OnSortingChanged (calls (handleOnSortByChanged t value))
    = length (calls (handleOnSortByChanged t value))
  ∧ (length (calls (handleOnSortByChanged t value)) ≤ 1)%nat.
Proof.
  intros Hnodup key. split; [|split; [|split; [|split; [reflexivity|]]]].
  - intros e He. apply handleOnSortByChanged_own.
    by apply own_property_elem.
  - intros Hkey Hproto. apply own_property_None in Hkey.
    unfold handleOnSortByChanged, get. fold key. rewrite Hkey.
    by rewrite bool_decide_eq_true_2.
  - intros Hkey Hproto. apply own_property_None in Hkey.
    unfold handleOnSortByChanged, get. fold key. rewrite Hkey.
    by rewrite bool_decide_eq_false_2.
  - unfold handleOnSortByChanged. fold key.
    destruct (get t key); simpl; split; (reflexivity || lia).
Qed.

Lemma sort_change_outcomes_witness :
  handleOnSortByChanged SortByOptions "valueOf"
  = ([onSortingChanged EmptyObject], Normal tt)
  ∧ handleOnSortByChanged [] "" = ([], Throw TypeError).
Proof.
  split.
  - refine (proj1 (proj2 (sort_change_outcomes SortByOptions "valueOf" _))
              _ _);
      by apply (bool_decide_unpack _).
  - refine (proj1 (proj2 (proj2 (sort_change_outcomes [] "" _))) _ _);
      by apply (bool_decide_unpack _).
Defined.

Lemma getSortByText_key o :
  getSortByText o ∈ ["newest"; "oldest"; "topic"; "origin"].
Proof.
  destruct o as [sb|]; [|apply list_elem_of_here].
  rewrite getSortByText_Some.
  destruct (strict_eq (sort sb) "created" && strict_eq (sortOrder sb) "asc");
    [apply list_elem_of_further, list_elem_of_here|].
  destruct (strict_eq (sort sb) "topic");
    [do 2 apply list_elem_of_further; apply list_elem_of_here|].
  destruct (strict_eq (sort sb) "origin");
    [do 3 apply list_elem_of_further; apply list_elem_of_here|].
  apply list_elem_of_here.
Qed.

(** The [sortBy] of the entry a lookup finds under the displayed text
    displays as that text. *)
Lemma getSortByText_selectable o :
  ∃ e, own_property SortByOptions (getSortByText o) = Some e
       ∧ getSortByText o ≠ ""
       ∧ getSortByText (Some (sortBy e)) = getSortByText o.
Proof.
  pose proof (getSortByText_key o) as Hin.
  repeat (apply elem_of_cons in Hin as [->|Hin];
          [eexists; split; [reflexivity|]; by split|]).
  by apply elem_of_nil in Hin.
Qed.

(** X6: the sort-by select always shows an option that can be selected:
    for every sorting prop the displayed text is a key of SortByOptions,
    selecting it completes and passes a SortBy that displays as the same
    text.  The SortBy passed is the sorting prop itself exactly when the
    prop is the sortBy of some entry of the table; in particular the sort
    order of a sorting by topic or origin is not kept: the option shown is
    the same for every sortOrder, and selecting it passes 'asc'. *)
Theorem sort_display_stable (sorting : SortBy) :
  let shown := getSortByText (Some sorting) in
  ∃ e,
    (shown, e) ∈ SortByOptions
    ∧ handleOnSortByChanged SortByOptions shown
      = ([onSortingChanged (ObjectOf (sortBy e))], Normal tt)
    ∧ getSortByText (Some (sortBy e)) = shown
    ∧ (sortBy e = sorting
       ↔ ∃ k e', (k, e') ∈ SortByOptions ∧ sortBy e' = sorting)
    ∧ (sort sorting = "topic" ∨ sort sorting = "origin" →
       sort (sortBy e) = sort sorting ∧ sortOrder (sortBy e) = "asc").
Proof.
  intros shown.
  destruct (getSortByText_selectable (Some sorting)) as (e & He & Hne & Hshow).
  fold shown in He, Hne, Hshow.
  exists e. split; [by apply own_property_Some_elem|].
  split; [apply handleOnSortByChanged_own; by rewrite or_else_nonempty|].
  split; [exact Hshow|].
  split; [split|].
  - intros <-. exists shown, e. split; [by apply own_property_Some_elem|done].
  - intros (k & e' & Hin & <-).
    assert (getSortByText (Some (sortBy e')) = k
            ∧ own_property SortByOptions k = Some e') as [Hk Hown].
    { unfold SortByOptions in Hin.
      repeat (apply elem_of_cons in Hin as [[= -> ->]|Hin]; [by split|]).
      by apply elem_of_nil in Hin. }
    subst shown. rewrite Hk in He. congruence.
  - subst shown. rewrite getSortByText_Some in He.
    intros [Hs|Hs]; rewrite Hs in He |- *; simpl in He;
      injection He as <-; by split.
Qed.

Lemma sort_display_stable_witness :
  ∃ e,
    handleOnSortByChanged SortByOptions
      (getSortByText (Some {| sort := "topic"; sortOrder := "desc" |}))
    = ([onSortingChanged (ObjectOf (sortBy e))], Normal tt)
    ∧ sort (sortBy e) = "topic" ∧ sortOrder (sortBy e) = "asc".
Proof.
  destruct (sort_display_stable {| sort := "topic"; sortOrder := "desc" |})
    as (e & _ & Hh & _ & _ & Hasc).
  exists e. split; [exact Hh|]. apply Hasc. by left.
Defined.

(** ** Rendering over any tables *)

Lemma array_map_pure {A B} (f : A → M B) (g : A → B) xs :
  (∀ x, x ∈ xs → f x = ([], Normal (g x))) →
  array_map f xs = ([], Normal (g <$> xs)).
Proof.
  induction xs as [|x xs IH]; intros Hf; simpl; [reflexivity|].
  rewrite (Hf x) by apply list_elem_of_here.
  rewrite IH by (intros y Hy; apply Hf; by apply list_elem_of_further).
  reflexivity.
Qed.

(** [Object.keys] lists own keys only, so the label lookup of a menu item
    never meets [undefined]. *)
Lemma menuItems_entries {A} `{Labelled A} (t : table A) :
  NoDup (keys t) →
  menuItems t
  = ([], Normal ((fun kv => menuItem kv.1 (label kv.2)) <$> t)).
Proof.
  intros Hnodup. unfold menuItems.
  rewrite (array_map_pure _
             (fun k => Element "MenuItem" [("value", Str k); ("key", Str k)]
                         (expression (label <$> own_property t k)))).
  - unfold keys. rewrite <- list_fmap_compose. do 2 f_equal.
    apply Forall_fmap_ext, Forall_forall. intros [k a] Hin. simpl.
    by rewrite (own_property_elem t k a).
  - intros k Hk. apply own_property_is_Some in Hk as [a Ha].
    unfold get. by rewrite Ha.
Qed.

Lemma descendants_Element type ty attrs children :
  descendants type (Element ty attrs children)
  = ((if strict_eq ty type then [Element ty attrs children] else [])
     ++ mjoin (descendants type <$> children))%list.
Proof.
  simpl. f_equal. induction children as [|c cs IH]; simpl; [reflexivity|].
  by rewrite IH.
Qed.

Lemma offered_menuItems {A} `{Labelled A} (t : table A) :
  omap (attribute_of "value") ((fun kv => menuItem kv.1 (label kv.2)) <$> t)
  = Str <$> keys t.
Proof.
  unfold keys. induction t as [|[k a] t IH]; [reflexivity|].
  rewrite !fmap_cons. cbn. by rewrite IH.
Qed.

Lemma descendants_menuItems {A} (f g : A → string) type (xs : list A) :
  strict_eq "MenuItem" type = false →
  mjoin (descendants type <$> ((fun x => menuItem (f x) (g x)) <$> xs)) = [].
Proof.
  intros Htype. induction xs as [|x xs IH]; [reflexivity|].
  rewrite !fmap_cons. change (mjoin (?x :: ?l)) with (x ++ mjoin l)%list.
  rewrite IH. unfold menuItem.
  rewrite descendants_Element, Htype. reflexivity.
Qed.

(** The selects of the rendered tree, over any tables. *)
Lemma NotificationsFilters_selects
    (ca : table CreatedAfterOption) (sb : table SortByOption)
    (props : NotificationsFiltersProps) :
  NoDup (keys ca) →
  NoDup (keys sb) →
  ∃ e,
    NotificationsFilters ca sb props = ([], Normal e)
    ∧ descendants "Select" e
      = [ Element "Select"
            [("labelId", Str "notifications-filter-view");
             ("label", Str "View");
             ("value", Str (viewValue (saved props) (unreadOnly props)));
             ("onChange", OnChange HandleOnViewChanged)]
            [ Element "MenuItem" [("value", Str "unread")] [Text "New only"];
              Element "MenuItem" [("value", Str "saved")] [Text "Saved"];
              Element "MenuItem" [("value", Str "read")]
                [Text "Marked as read"];
              Element "MenuItem" [("value", Str "all")] [Text "All"] ];
          Element "Select"
            [("label", Str "Created after");
             ("placeholder", Str "Notifications since");
             ("value", OptStr (createdAfter props));
             ("onChange", OnChange HandleOnCreatedAfterChanged)]
            ((fun kv => menuItem kv.1 (label kv.2)) <$> ca);
          Element "Select"
            [("label", Str "Sort by");
             ("placeholder", Str "Field to sort by");
             ("value", Str (getSortByText (Some (sorting props))));
             ("onChange", OnChange HandleOnSortByChanged)]
            ((fun kv => menuItem kv.1 (label kv.2)) <$> sb) ].
Proof.
  intros Hca Hsb. unfold NotificationsFilters.
  rewrite (menuItems_entries ca Hca), (menuItems_entries sb Hsb).
  cbn [bind ret app].
  eexists. split; [reflexivity|].
  repeat (rewrite descendants_Element;
          cbn [fmap list_fmap mjoin list_join strict_eq String.eqb
               Ascii.eqb Bool.eqb app]).
  rewrite !(descendants_menuItems (fun kv => kv.1) (fun kv => label kv.2))
    by reflexivity.
  reflexivity.
Qed.

(** X7: over any two tables whose keys do not repeat, rendering completes
    and invokes no callback, for all props: the menu items of the
    created-after and sort-by selects are the entries of the table, in
    order, each with its key as value and its label as text, and the
    selects show the created-after prop and the sort-by text. *)
Theorem render_any_tables
    (ca : table CreatedAfterOption) (sb : table SortByOption)
    (props : NotificationsFiltersProps) :
  NoDup (keys ca) →
  NoDup (keys sb) →
  let m := NotificationsFilters ca sb props in
  completes m
  ∧ calls m = []
  ∧ children_of <$> (rendered m ≫= selectLabelled "Created after")
    = Some ((fun kv => menuItem kv.1 (label kv.2)) <$> ca)
  ∧ children_of <$> (rendered m ≫= selectLabelled "Sort by")
    = Some ((fun kv => menuItem kv.1 (label kv.2)) <$> sb)
  ∧ offered <$> (rendered m ≫= selectLabelled "Created after")
    = Some (Str <$> keys ca)
  ∧ offered <$> (rendered m ≫= selectLabelled "Sort by")
    = Some (Str <$> keys sb)
  ∧ displayed "Created after" m = Some (OptStr (createdAfter props))
  ∧ displayed "Sort by" m
    = Some (Str (getSortByText (Some (sorting props)))).
Proof.
  intros Hca Hsb m.
  destruct (NotificationsFilters_selects ca sb props Hca Hsb)
    as (e & Hm & Hselects).
  assert (rendered m = Some e) as Hrendered by (subst m; by rewrite Hm).
  unfold displayed. rewrite Hrendered.
  change (Some e ≫= ?f) with (f e).
  unfold selectLabelled. rewrite Hselects.
  subst m. rewrite Hm.
  split; [by eexists|]. split; [reflexivity|].
  do 2 (split; [reflexivity|]).
  split; [by rewrite <- (offered_menuItems ca)|].
  split; [by rewrite <- (offered_menuItems sb)|].
  split; reflexivity.
Qed.

Lemma render_any_tables_witness :
  offered <$> (rendered (NotificationsFilters CreatedAfterOptions
                           SortByOptions_turned
                           {| unreadOnly := None; createdAfter := None;
                              sorting := {| sort := "topic";
                                            sortOrder := "desc" |};
                              saved := Some false |})
               ≫= selectLabelled "Sort by")
  = Some (Str <$> keys SortByOptions_turned).
Proof.
  refine (proj1 (proj2 (proj2 (proj2 (proj2 (proj2
            (render_any_tables CreatedAfterOptions SortByOptions_turned
               _ _ _))))))); by apply (bool_decide_unpack _).
Defined.

(** ** Which select reaches which callback *)

(** X8: over any two tables whose keys do not repeat and for all props,
    each of the three selects carries its own handler and no other label
    finds a select; and each handler invokes only the callbacks of its own
    filter, whatever the event value: the view handler only
    onUnreadOnlyChanged and onSavedChanged, the created-after handler only
    onCreatedAfterChanged, the sort-by handler only onSortingChanged. *)
Theorem select_callbacks
    (ca : table CreatedAfterOption) (sb : table SortByOption)
    (props : NotificationsFiltersProps) :
  NoDup (keys ca) →
  NoDup (keys sb) →
  let m := NotificationsFilters ca sb props in
  handlerOf "View" m = Some HandleOnViewChanged
  ∧ handlerOf "Created after" m = Some HandleOnCreatedAfterChanged
  ∧ handlerOf "Sort by" m = Some HandleOnSortByChanged
  ∧ (∀ l, l ∉ ["View"; "Created after"; "Sort by"] → handlerOf l m = None)
  ∧ ∀ value c,
      (c ∈ calls (onChange sb HandleOnViewChanged value) →
       callback_of c ∈ [OnUnreadOnlyChanged; OnSavedChanged])
      ∧ (c ∈ calls (onChange sb HandleOnCreatedAfterChanged value) →
         callback_of c = OnCreatedAfterChanged)
      ∧ (c ∈ calls (onChange sb HandleOnSortByChanged value) →
         callback_of c = OnSortingChanged).
Proof.
  intros Hca Hsb m.
  destruct (NotificationsFilters_selects ca sb props Hca Hsb)
    as (e & Hm & Hselects).
  assert (∀ l, handlerOf l m
               = List.find
                   (fun s => match s with
                             | Element _ attrs _ =>
                                 bool_decide (attr "label" attrs = Some (Str l))
                             | Text _ => false
                             end)
                   (descendants "Select" e)
                 ≫= (fun s => match attribute_of "onChange" s with
                              | Some (OnChange h) => Some h
                              | _ => None
                              end)) as Hfind.
  { intros l. subst m. unfold handlerOf. by rewrite Hm. }
  rewrite !Hfind, Hselects.
  do 3 (split; [reflexivity|]).
  split.
  - intros l Hl. rewrite Hfind, Hselects. simpl.
    repeat case_bool_decide; simplify_eq/=; try done;
      exfalso; apply Hl;
      repeat first [apply list_elem_of_here | apply list_elem_of_further].
  - intros value c. simpl. split; [|split]; intros Hc.
    + rewrite handleOnViewChanged_cases in Hc.
      apply elem_of_cons in Hc as [->|Hc]; [apply list_elem_of_here|].
      apply list_elem_of_singleton in Hc as ->.
      apply list_elem_of_further, list_elem_of_here.
    + by apply list_elem_of_singleton in Hc as ->.
    + unfold handleOnSortByChanged in Hc.
      destruct (get sb (or_else value "newest")); simpl in Hc.
      * by apply list_elem_of_singleton in Hc as ->.
      * by apply list_elem_of_singleton in Hc as ->.
      * by apply elem_of_nil in Hc.
Qed.

Lemma select_callbacks_witness :
  handlerOf "Sort by"
    (NotificationsFilters CreatedAfterOptions SortByOptions
       {| unreadOnly := Some true; createdAfter := Some "last24h";
          sorting := {| sort := "created"; sortOrder := "asc" |};
          saved := None |})
  = Some HandleOnSortByChanged.
Proof.
  refine (proj1 (proj2 (proj2
            (select_callbacks CreatedAfterOptions SortByOptions _ _ _))));
    by apply (bool_decide_unpack _).
Defined.

(** ** Identifiers in the rendered tree *)

(** X9: for all props, the label of the created-after select is rendered
    with the id of the label of the view select, 'notifications-filter-view',
    so the ids of the three InputLabels are not pairwise distinct; and only
    the view select names its label through labelId. *)
Theorem label_ids (props : NotificationsFiltersProps) :
  let m := NotificationsFilters CreatedAfterOptions SortByOptions props in
  attributes "InputLabel" "id" <$> rendered m
  = Some [ Some (Str "notifications-filter-view");
           Some (Str "notifications-filter-view");
           Some (Str "notifications-filter-sort") ]
  ∧ (∀ ids, attributes "InputLabel" "id" <$> rendered m = Some ids →
            ¬ NoDup ids)
  ∧ attributes "Select" "labelId" <$> rendered m
    = Some [ Some (Str "notifications-filter-view"); None; None ].
Proof.
  intros m. split; [reflexivity|]. split; [|reflexivity].
  intros ids [= <-]. intros Hnodup.
  apply NoDup_cons in Hnodup as [Hnotin _]. apply Hnotin.
  apply list_elem_of_here.
Qed.

(** ** References handed out over time *)

(** X10: every sort-change event hands the callback an object of its own:
    the reference passed at one event is not alive before it, and is never
    passed again at a later event, as long as objects are not removed from
    the store in between. *)
Theorem handed_references_distinct
    (value later_value : string) (h h1 later h2 : Store.heap)
    (l1 l2 : Store.loc) :
  Store.sortingArgument value h = Normal (l1, h1) →
  dom h1 ⊆ dom later →
  Store.sortingArgument later_value later = Normal (l2, h2) →
  (l1 ∉ dom h) ∧ l1 ∈ dom h1 ∧ (l2 ∉ dom later) ∧ l1 ≠ l2
  ∧ ∀ r, r ∈ dom h → h1 !! r = h !! r.
Proof.
  intros H1 Hgrow H2.
  apply sortingArgument_fresh in H1 as (Hfresh1 & o1 & ->).
  apply sortingArgument_fresh in H2 as (Hfresh2 & o2 & ->).
  assert (l1 ∈ dom (<[l1:=o1]> h)) as Hl1.
  { apply elem_of_dom. rewrite lookup_insert_eq. by eexists. }
  split; [done|]. split; [done|]. split; [done|]. split.
  - intros ->. apply Hfresh2, Hgrow, Hl1.
  - intros r Hr. rewrite lookup_insert_ne; [done|]. by intros ->.
Qed.

Lemma handed_references_distinct_witness :
  ∃ l1 h1 l2 h2,
    Store.sortingArgument "topic" Store.initial_heap = Normal (l1, h1)
    ∧ Store.sortingArgument "topic" (overwriting_parent l1 h1)
      = Normal (l2, h2)
    ∧ l1 ≠ l2.
Proof.
  eexists _, _, _, _. split; [reflexivity|]. split; [reflexivity|].
  refine (proj1 (proj2 (proj2 (proj2
            (handed_references_distinct "topic" "topic" Store.initial_heap
               _ _ _ _ _ eq_refl _ eq_refl))))).
  unfold overwriting_parent. rewrite dom_insert_L. set_solver.
Defined.

(** ** The created-after select and the presets *)

(** X11: every value the created-after select offers names a preset: for
    all props, a change event with an offered value is forwarded unchanged
    to onCreatedAfterChanged, the lookup CreatedAfterOptions[value] finds an
    entry, the select shows the value once it comes back as the createdAfter
    prop, and the menu item of that value carries the label of the entry. *)
Theorem createdAfter_offered_presets
    (props : NotificationsFiltersProps) (items : list attribute)
    (value : string) :
  let m := NotificationsFilters CreatedAfterOptions SortByOptions props in
  offered <$> (rendered m ≫= selectLabelled "Created after") = Some items →
  Str value ∈ items →
  handleOnCreatedAfterChanged value
  = ([onCreatedAfterChanged value], Normal tt)
  ∧ (∃ e, get CreatedAfterOptions value = Own e
          ∧ (value, e) ∈ CreatedAfterOptions
          ∧ menuItem value (label e)
            ∈ default [] (children_of
                            <$> (rendered m ≫= selectLabelled "Created after")))
  ∧ ∀ props',
      createdAfter props' = Some value →
      displayed "Created after"
        (NotificationsFilters CreatedAfterOptions SortByOptions props')
      = Some (OptStr (Some value)).
Proof.
  intros m Hitems Hin.
  assert (items = Str <$> keys CreatedAfterOptions) as ->.
  { assert (offered <$> (rendered m ≫= selectLabelled "Created after")
            = Some (Str <$> keys CreatedAfterOptions)) as H by reflexivity.
    congruence. }
  apply list_elem_of_fmap in Hin as (k & [= <-] & Hk).
  split; [reflexivity|]. split.
  - rewrite keys_CreatedAfterOptions in Hk.
    repeat (apply elem_of_cons in Hk as [->|Hk];
            [eexists; split; [reflexivity|]; split;
             repeat first [apply list_elem_of_here
                          | apply list_elem_of_further]|]).
    by apply elem_of_nil in Hk.
  - intros props' Hprops.
    destruct (NotificationsFilters_shows props') as (_ & _ & _ & -> & _).
    by rewrite Hprops.
Qed.

Lemma createdAfter_offered_presets_witness :
  ∃ e, get CreatedAfterOptions "lastWeek" = Own e
       ∧ ("lastWeek", e) ∈ CreatedAfterOptions.
Proof.
  destruct (createdAfter_offered_presets
              {| unreadOnly := None; createdAfter := None;
                 sorting := {| sort := "created"; sortOrder := "desc" |};
                 saved := None |}
              [Str "last24h"; Str "lastWeek"; Str "all"] "lastWeek")
    as (_ & (e & Hget & Hin & _) & _).
  - reflexivity.
  - apply list_elem_of_further, list_elem_of_here.
  - by exists e.
Defined.
